(** * check_bins: the ELF header serializer and the fixture comparator

    A shallow embedding of [tools/execfmt_support/check_bins.py].

    Python integers are unbounded, so they are [Z]; a [bytes] object is a
    list of [byte]; the truthiness of [is64bit] and [be] is a [bool].
    [int.to_bytes] is the only operation of [gen_headers] that can raise, and
    the script's [Path.read_bytes] the only other one, so fallible code lives
    in a small exception monad. *)

From Stdlib Require Import ZArith List String Ascii Lia Bool.
From coqutil Require Import Byte Word.LittleEndianList.
Import ListNotations.
Local Open Scope Z_scope.

(** ** The Python runtime the script relies on *)

Module Py.

Definition bytes := list byte.

Inductive exception : Type :=
| OverflowError (msg : string)
| OSError (path : string).

Inductive result (A : Type) : Type :=
| Ok (a : A)
| Raise (e : exception).
Arguments Ok {A} a.
Arguments Raise {A} e.

Definition bind {A B} (c : result A) (k : A -> result B) : result B :=
  match c with
  | Ok a => k a
  | Raise e => Raise e
  end.

Inductive byteorder : Type := little | big.

(** The directory of the script: the content of each file in it.  A name
    without content cannot be read. *)
Definition directory := string -> option (list byte).

(** [Path(__file__).parent.joinpath(name).read_bytes()] *)
Definition read_bytes (dir : directory) (name : string)
  : result (list byte) :=
  match dir name with
  | Some content => Ok content
  | None => Raise (OSError name)
  end.

(** [val.to_bytes(length, byteorder=...)] with the default [signed=False]:
    a negative [val] and a [val] that does not fit [length] bytes both raise
    [OverflowError]. *)
Definition to_bytes (val : Z) (length : nat) (order : byteorder)
  : result bytes :=
  if val <? 0 then
    Raise (OverflowError "can't convert negative int to unsigned")
  else if 2 ^ (8 * Z.of_nat length) <=? val then
    Raise (OverflowError "int too big to convert")
  else
    Ok (match order with
        | little => le_split length val
        | big => rev (le_split length val)
        end).

(** [int.from_bytes(bs, byteorder=...)], the reader of a field. *)
Definition from_bytes (bs : bytes) (order : byteorder) : Z :=
  match order with
  | little => le_combine bs
  | big => le_combine (rev bs)
  end.

(** [bytes([n0, n1, ...])] on integers in [range(256)]. *)
Definition bytes_of (ns : list Z) : bytes := map byte.of_Z ns.

(** [len(bs)] *)
Definition len (bs : bytes) : Z := Z.of_nat (List.length bs).

(** [a != b] on bytes objects *)
Definition bytes_ne (a b : bytes) : bool :=
  if list_eq_dec Byte.byte_eq_dec a b then false else true.

Definition hex_value (c : ascii) : Z :=
  let n := Z.of_nat (nat_of_ascii c) in
  if (48 <=? n) && (n <=? 57) then n - 48
  else if (97 <=? n) && (n <=? 102) then n - 87
  else if (65 <=? n) && (n <=? 70) then n - 55
  else 0.

(** [bytes.fromhex(s)] on the strings the script passes to it: an even
    number of hexadecimal digits and nothing else. *)
Fixpoint fromhex (s : string) : bytes :=
  match s with
  | String hi (String lo tl) =>
      byte.of_Z (16 * hex_value hi + hex_value lo) :: fromhex tl
  | _ => []
  end.

Definition hex_digit (n : Z) : ascii :=
  ascii_of_nat (Z.to_nat (if n <? 10 then 48 + n else 87 + n)).

(** [bs.hex()]: two lowercase digits per byte. *)
Fixpoint hex (bs : bytes) : string :=
  match bs with
  | [] => EmptyString
  | b :: tl =>
      String (hex_digit (byte.unsigned b / 16))
        (String (hex_digit (byte.unsigned b mod 16)) (hex tl))
  end.

End Py.
Import Py.

Declare Scope py_scope.
Delimit Scope py_scope with py.
Notation "x <- c ;; k" := (bind c (fun x => k))
  (at level 61, c at next level, right associativity) : py_scope.
Notation "ret +=! e" := (bind e (fun v => Ok (ret ++ v)))
  (at level 60, no associativity) : py_scope.
Local Open Scope py_scope.

(** ** [gen_headers] *)

Definition gen_headers
  (target_id instr_len : Z) (is64bit be : bool) (flags : Z) : result bytes :=
  let LOAD_ADDR := 0x10000 in
  (* values dependent on ELF size *)
  let '(EHDR_SIZE, PHTB_SIZE, ADDR_SIZE) :=
    if is64bit then (64, 56, 8%nat) else (52, 32, 4%nat) in
  (* combined header size *)
  let HEADER_SIZE := EHDR_SIZE + PHTB_SIZE in
  let int_encode (val : Z) (length : nat) : result bytes :=
    to_bytes val length (if be then big else little) in
  (* EHDR: e_ident *)
  let ret :=
    (Byte.x7f :: list_byte_of_string "ELF") ++
    (bytes_of [if is64bit then 2 else 1]     (* ELFCLASS64 or ELFCLASS32 *)
     ++ bytes_of [if be then 2 else 1]       (* ELFDATA2MSB, ELFDATA2LSB *)
     ++ bytes_of [1]                         (* EV_CURRENT *)
     ++ bytes_of [0; 0]                      (* ELFOSABI_NONE, no ABI version *)
     ++ bytes_of (repeat 0 7))               (* padding bytes *) in
  (* e_type *)
  ret <- ret +=! int_encode 2 2%nat ;;
  (* e_machine *)
  ret <- ret +=! int_encode target_id 2%nat ;;
  (* e_version *)
  ret <- ret +=! int_encode 1 4%nat ;;
  (* e_entry: entry follows headers *)
  ret <- ret +=! int_encode (LOAD_ADDR + HEADER_SIZE) ADDR_SIZE ;;
  (* e_phoff: PHDR table is right after the EHDR *)
  ret <- ret +=! int_encode EHDR_SIZE ADDR_SIZE ;;
  (* e_shoff *)
  ret <- ret +=! int_encode 0 ADDR_SIZE ;;
  (* e_flags *)
  ret <- ret +=! int_encode flags 4%nat ;;
  (* e_ehsize *)
  ret <- ret +=! int_encode EHDR_SIZE 2%nat ;;
  (* e_phentsize *)
  ret <- ret +=! int_encode PHTB_SIZE 2%nat ;;
  (* e_phnum *)
  ret <- ret +=! int_encode 1 2%nat ;;
  (* e_shentsize *)
  ret <- ret +=! int_encode 0 2%nat ;;
  (* e_shnum *)
  ret <- ret +=! int_encode 0 2%nat ;;
  (* e_shstrndx *)
  ret <- ret +=! int_encode 0 2%nat ;;
  (* PHDR entry: p_type *)
  ret <- ret +=! int_encode 1 4%nat ;;
  (* p_flags comes second in a 64-bit entry *)
  ret <- (if is64bit
          then ret +=! int_encode (Z.lor (Z.shiftl 1 0) (Z.shiftl 1 2)) 4%nat
          else Ok ret) ;;
  (* p_offset *)
  ret <- ret +=! int_encode 0x0 ADDR_SIZE ;;
  (* p_vaddr *)
  ret <- ret +=! int_encode LOAD_ADDR ADDR_SIZE ;;
  (* p_paddr *)
  ret <- ret +=! int_encode 0x0 ADDR_SIZE ;;
  (* p_filesz *)
  ret <- ret +=! int_encode (HEADER_SIZE + instr_len) ADDR_SIZE ;;
  (* p_memsz *)
  ret <- ret +=! int_encode (HEADER_SIZE + instr_len) ADDR_SIZE ;;
  (* p_flags comes second to last in a 32-bit entry *)
  ret <- (if negb is64bit
          then ret +=! int_encode (Z.lor (Z.shiftl 1 0) (Z.shiftl 1 2)) 4%nat
          else Ok ret) ;;
  (* p_align *)
  ret <- ret +=! int_encode 2 ADDR_SIZE ;;
  Ok ret.

(** ** The script: instruction bytes, expected files and the comparison *)

Local Open Scope string_scope.

Definition ARM64_INSTRUCTIONS : bytes :=
  ((* mov w8, 0x5d *) fromhex "a80b8052"
  (* mov x0, 0 *) ++ fromhex "000080d2"
  (* svc 0 *) ++ fromhex "010000d4")%list.

Definition I386_INSTRUCTIONS : bytes :=
  ((* push 1 *) fromhex "6a01"
  (* pop eax *) ++ fromhex "58"
  (* xor edx, edx *) ++ fromhex "31d2"
  (* int 0x80 *) ++ fromhex "cd80")%list.

Definition RISCV64_INSTRUCTIONS : bytes :=
  ((* li a7, 93 *) fromhex "9308d005"
  (* li a0, 0 *) ++ fromhex "0145"
  (* ecall *) ++ fromhex "73000000")%list.

Definition S390X_INSTRUCTIONS : bytes :=
  ((* lghi r2, 0 *) fromhex "a7290000"
  (* svc 1 *) ++ fromhex "0a01")%list.

Definition X86_64_INSTRUCTIONS : bytes :=
  ((* push 0x3c *) fromhex "6a3c"
  (* pop rax *) ++ fromhex "58"
  (* xor edi, edi *) ++ fromhex "31ff"
  (* syscall *) ++ fromhex "0f05")%list.

(** The default arguments of [gen_headers] are [is64bit=True], [be=False]
    and [flags=0]. *)
Definition expected_arm64_bytes : result bytes :=
  (* 183 is EM_AARCH64 *)
  hdr <- gen_headers 183 (len ARM64_INSTRUCTIONS) true false 0 ;;
  Ok (hdr ++ ARM64_INSTRUCTIONS)%list.

Definition expected_i386_bytes : result bytes :=
  (* 3 is EM_386 *)
  hdr <- gen_headers 3 (len I386_INSTRUCTIONS) false false 0 ;;
  Ok (hdr ++ I386_INSTRUCTIONS)%list.

Definition expected_riscv64_bytes : result bytes :=
  (* 243 is EM_RISCV, 5 is EF_RISCV_RVC | EF_RISCV_FLOAT_ABI_DOUBLE *)
  hdr <- gen_headers 243 (len RISCV64_INSTRUCTIONS) true false 5 ;;
  Ok (hdr ++ RISCV64_INSTRUCTIONS)%list.

Definition expected_s390x_bytes : result bytes :=
  (* 22 is EM_S390 *)
  hdr <- gen_headers 22 (len S390X_INSTRUCTIONS) true true 0 ;;
  Ok (hdr ++ S390X_INSTRUCTIONS)%list.

Definition expected_x86_64_bytes : result bytes :=
  (* 62 is EM_X86_64 *)
  hdr <- gen_headers 62 (len X86_64_INSTRUCTIONS) true false 0 ;;
  Ok (hdr ++ X86_64_INSTRUCTIONS)%list.

(** What a run of the script leaves behind: the lines it printed and the
    status it passed to [sys.exit]. *)
Record outcome : Type := Outcome { stdout : list string; exit_status : Z }.

(** The module body, top to bottom.  The state threaded through the five
    [if] statements is the printed output and the counter [fails]. *)
Definition check_bins (dir : directory) : result outcome :=
  arm64_bytes <- read_bytes dir "arm64" ;;
  expected_arm64_bytes <- expected_arm64_bytes ;;
  i386_bytes <- read_bytes dir "i386" ;;
  expected_i386_bytes <- expected_i386_bytes ;;
  riscv64_bytes <- read_bytes dir "riscv64" ;;
  expected_riscv64_bytes <- expected_riscv64_bytes ;;
  s390x_bytes <- read_bytes dir "s390x" ;;
  expected_s390x_bytes <- expected_s390x_bytes ;;
  x86_64_bytes <- read_bytes dir "x86_64" ;;
  expected_x86_64_bytes <- expected_x86_64_bytes ;;
  let st := ([], 0) in
  let st :=
    if bytes_ne arm64_bytes expected_arm64_bytes then
      ((fst st ++ ["MISMATCH! arm64_bytes != expected_arm64_bytes"])%list,
       snd st + 1)
    else st in
  let st :=
    if bytes_ne i386_bytes expected_i386_bytes then
      ((fst st ++ ["MISMATCH! i386_bytes != expected_i386_bytes"])%list,
       snd st + 1)
    else st in
  let st :=
    if bytes_ne riscv64_bytes expected_riscv64_bytes then
      ((fst st
        ++ ["MISMATCH! riscv64_bytes != expected_riscv64_bytes";
            ("expected_riscv64_bytes.hex()='"
             ++ hex expected_riscv64_bytes ++ "'")%string;
            ("         riscv64_bytes.hex()='"
             ++ hex riscv64_bytes ++ "'")%string])%list,
       snd st + 1)
    else st in
  let st :=
    if bytes_ne s390x_bytes expected_s390x_bytes then
      ((fst st ++ ["MISMATCH! s390x_bytes != expected_s390x_bytes"])%list,
       snd st + 1)
    else st in
  let st :=
    if bytes_ne x86_64_bytes expected_x86_64_bytes then
      ((fst st ++ ["MISMATCH! x86_64_bytes != expected_x86_64_bytes"])%list,
       snd st + 1)
    else st in
  (* exit code is the number of mismatches *)
  Ok (Outcome (fst st) (snd st)).

Local Close Scope string_scope.

(** ** The layout of the header bundle

    The fields [gen_headers] emits, in order, each with the name the source
    gives it, its value and its width in bytes.  [gen_headers_unfold] below
    shows that the function's output is the serialization of this list. *)

Record field : Type := Field { f_name : string; f_val : Z; f_width : nat }.

Definition byteorder_of (be : bool) : byteorder := if be then big else little.

Definition encode (order : byteorder) (f : field) : bytes :=
  match order with
  | little => le_split (f_width f) (f_val f)
  | big => rev (le_split (f_width f) (f_val f))
  end.

Definition serialize (order : byteorder) (fs : list field) : bytes :=
  flat_map (encode order) fs.

Definition fits (val : Z) (length : nat) : Prop :=
  0 <= val < 2 ^ (8 * Z.of_nat length).

Definition EHDR_SIZE (is64bit : bool) : Z := if is64bit then 64 else 52.
Definition PHTB_SIZE (is64bit : bool) : Z := if is64bit then 56 else 32.
Definition ADDR_SIZE (is64bit : bool) : nat := if is64bit then 8 else 4.
Definition HEADER_SIZE (is64bit : bool) : Z :=
  EHDR_SIZE is64bit + PHTB_SIZE is64bit.
Definition LOAD_ADDR : Z := 0x10000.

Definition PF_X : Z := Z.shiftl 1 0.
Definition PF_W : Z := Z.shiftl 1 1.
Definition PF_R : Z := Z.shiftl 1 2.
Definition PT_LOAD : Z := 1.

Definition e_ident_fields (is64bit be : bool) : list field :=
  [ Field "EI_MAG0" 0x7f 1; Field "EI_MAG1" 0x45 1;
    Field "EI_MAG2" 0x4c 1; Field "EI_MAG3" 0x46 1;
    Field "EI_CLASS" (if is64bit then 2 else 1) 1;
    Field "EI_DATA" (if be then 2 else 1) 1;
    Field "EI_VERSION" 1 1;
    Field "EI_OSABI" 0 1; Field "EI_ABIVERSION" 0 1;
    Field "EI_PAD" 0 1; Field "EI_PAD" 0 1; Field "EI_PAD" 0 1;
    Field "EI_PAD" 0 1; Field "EI_PAD" 0 1; Field "EI_PAD" 0 1;
    Field "EI_PAD" 0 1 ].

Definition ehdr_fields (target_id : Z) (is64bit : bool) (flags : Z)
  : list field :=
  let A := ADDR_SIZE is64bit in
  [ Field "e_type" 2 2;
    Field "e_machine" target_id 2;
    Field "e_version" 1 4;
    Field "e_entry" (LOAD_ADDR + HEADER_SIZE is64bit) A;
    Field "e_phoff" (EHDR_SIZE is64bit) A;
    Field "e_shoff" 0 A;
    Field "e_flags" flags 4;
    Field "e_ehsize" (EHDR_SIZE is64bit) 2;
    Field "e_phentsize" (PHTB_SIZE is64bit) 2;
    Field "e_phnum" 1 2;
    Field "e_shentsize" 0 2;
    Field "e_shnum" 0 2;
    Field "e_shstrndx" 0 2 ].

Definition phdr_fields (instr_len : Z) (is64bit : bool) : list field :=
  let A := ADDR_SIZE is64bit in
  let p_flags := Field "p_flags" (Z.lor PF_X PF_R) 4 in
  [ Field "p_type" PT_LOAD 4 ]
  ++ (if is64bit then [ p_flags ] else [])
  ++ [ Field "p_offset" 0 A;
       Field "p_vaddr" LOAD_ADDR A;
       Field "p_paddr" 0 A;
       Field "p_filesz" (HEADER_SIZE is64bit + instr_len) A;
       Field "p_memsz" (HEADER_SIZE is64bit + instr_len) A ]
  ++ (if is64bit then [] else [ p_flags ])
  ++ [ Field "p_align" 2 A ].

Definition fields (target_id instr_len : Z) (is64bit be : bool) (flags : Z)
  : list field :=
  e_ident_fields is64bit be
  ++ ehdr_fields target_id is64bit flags
  ++ phdr_fields instr_len is64bit.

(** The inputs on which no [to_bytes] call of [gen_headers] overflows. *)
Definition in_range (target_id instr_len : Z) (is64bit : bool) (flags : Z)
  : Prop :=
  fits target_id 2 /\ fits flags 4
  /\ fits (HEADER_SIZE is64bit + instr_len) (ADDR_SIZE is64bit).

(** ** Reading fields back *)

Definition total_width (fs : list field) : nat :=
  fold_right (fun f acc => (f_width f + acc)%nat) 0%nat fs.

(** [bs[off : off + n]] *)
Definition slice (off n : nat) (bs : bytes) : bytes := firstn n (skipn off bs).

(** Cuts a byte sequence into consecutive chunks of the given widths. *)
Fixpoint split_fields (ws : list nat) (bs : bytes) : list bytes :=
  match ws with
  | [] => []
  | w :: ws' => firstn w bs :: split_fields ws' (skipn w bs)
  end.

(** The widths of the header's fields; they depend on the word size only. *)
Definition widths (is64bit : bool) : list nat :=
  map f_width (fields 0 0 is64bit false 0).

(** Index of the one-byte data-encoding field of [e_ident]. *)
Definition EI_DATA : nat := 5.

(** The reading of "changing only the endianness flag reverses every
    multi-byte field and leaves single-byte fields unchanged": field by
    field, the big-endian header is the reversal of the little-endian one
    (the reversal of a single byte being that byte). *)
Definition endianness_only_reverses
  (target_id instr_len : Z) (is64bit : bool) (flags : Z) : Prop :=
  forall le be_,
    gen_headers target_id instr_len is64bit false flags = Ok le ->
    gen_headers target_id instr_len is64bit true flags = Ok be_ ->
    split_fields (widths is64bit) be_
    = map (@rev byte) (split_fields (widths is64bit) le).

(** ** Fixtures

    The five architectures whose fixture the script checks, the name of the
    file of each, and the bytes the script expects in it. *)

Inductive arch : Type := arm64 | i386 | riscv64 | s390x | x86_64.

Definition all_archs : list arch := [arm64; i386; riscv64; s390x; x86_64].

Definition arch_name (a : arch) : string :=
  match a with
  | arm64 => "arm64"
  | i386 => "i386"
  | riscv64 => "riscv64"
  | s390x => "s390x"
  | x86_64 => "x86_64"
  end%string.

Definition expected (a : arch) : result bytes :=
  match a with
  | arm64 => expected_arm64_bytes
  | i386 => expected_i386_bytes
  | riscv64 => expected_riscv64_bytes
  | s390x => expected_s390x_bytes
  | x86_64 => expected_x86_64_bytes
  end.

(** The first line the script prints for a mismatch of [a]. *)
Definition mismatch_line (a : arch) : string :=
  ("MISMATCH! " ++ arch_name a ++ "_bytes != expected_"
   ++ arch_name a ++ "_bytes")%string.

(** The fixture of [a] in [dir] is not, byte for byte, what is expected. *)
Definition fixture_differs (dir : directory) (a : arch) : bool :=
  match dir (arch_name a), expected a with
  | Some content, Ok e => bytes_ne content e
  | _, _ => true
  end.

Definition mismatches (dir : directory) : list arch :=
  filter (fixture_differs dir) all_archs.

(** Overwrites the byte at index [i]. *)
Definition mutate (i : nat) (b : byte) (bs : bytes) : bytes :=
  firstn i bs ++ b :: skipn (S i) bs.

(** The directory with the file [name] replaced. *)
Definition write_bytes (dir : directory) (name : string) (content : bytes)
  : directory :=
  fun n => if String.eqb n name then Some content else dir n.

(** Every line the script prints for a mismatch of [a]: one line, and for
    riscv64 the two hexadecimal dumps as well. *)
Definition diagnostic (dir : directory) (a : arch) : list string :=
  match a with
  | riscv64 =>
      [ mismatch_line a;
        ("expected_riscv64_bytes.hex()='"
         ++ match expected a with Ok e => hex e | Raise _ => "" end
         ++ "'")%string;
        ("         riscv64_bytes.hex()='"
         ++ match dir (arch_name a) with Some c => hex c | None => "" end
         ++ "'")%string ]
  | _ => [ mismatch_line a ]
  end.

(** The directory in which every fixture holds the expected bytes. *)
Definition expected_dir : directory :=
  fun n =>
    match find (fun a => String.eqb n (arch_name a)) all_archs with
    | Some a => match expected a with Ok e => Some e | Raise _ => None end
    | None => None
    end.

(** ** Further readers

    [int_encode] is the helper [gen_headers] defines locally; here the [be]
    it closes over is a parameter. *)

Definition int_encode (be : bool) (val : Z) (length : nat) : result bytes :=
  to_bytes val length (if be then big else little).

(** The integer held by the [n] bytes at offset [off]. *)
Definition read (off n : nat) (be : bool) (bs : bytes) : Z :=
  from_bytes (slice off n bs) (byteorder_of be).

(** The first fixture, in the order the script reads them, that is not in
    the directory. *)
Definition first_missing (dir : directory) : option arch :=
  find (fun a => match dir (arch_name a) with
                 | Some _ => false
                 | None => true
                 end) all_archs.

(** * Proofs *)

(** ** Facts about the runtime model *)

Lemma to_bytes_fits (val : Z) (length : nat) (order : byteorder) :
  fits val length ->
  to_bytes val length order = Ok (encode order (Field "" val length)).
Proof.
  unfold fits, to_bytes. intros [Hlo Hhi].
  destruct (Z.ltb_spec val 0) as [Hneg | _]; [lia |].
  destruct (Z.leb_spec (2 ^ (8 * Z.of_nat length)) val) as [Hbig | _]; [lia |].
  destruct order; reflexivity.
Qed.

Lemma to_bytes_overflow (val : Z) (length : nat) (order : byteorder) :
  ~ fits val length ->
  exists msg, to_bytes val length order = Raise (OverflowError msg).
Proof.
  unfold fits, to_bytes. intros Hno.
  destruct (Z.ltb_spec val 0) as [Hneg | Hpos]; [eauto |].
  destruct (Z.leb_spec (2 ^ (8 * Z.of_nat length)) val) as [Hbig | Hsmall];
    [eauto | lia].
Qed.

Lemma fits_dec (val : Z) (length : nat) : {fits val length} + {~ fits val length}.
Proof.
  unfold fits.
  destruct (Z_le_dec 0 val); [| right; lia].
  destruct (Z_lt_dec val (2 ^ (8 * Z.of_nat length))); [left | right]; lia.
Qed.

Ltac fits_const := unfold fits; cbv; split; congruence.

(** [gen_headers] makes twenty-odd [to_bytes] calls; all but three are on
    constants that fit.  The three on arguments decide, in the order of the
    source, whether the call returns, and with which exception it does
    not. *)
Lemma gen_headers_unfold target_id instr_len is64bit be flags :
  gen_headers target_id instr_len is64bit be flags
  = (let order := byteorder_of be in
     _ <- to_bytes target_id 2 order ;;
     _ <- to_bytes flags 4 order ;;
     _ <- to_bytes (HEADER_SIZE is64bit + instr_len) (ADDR_SIZE is64bit)
            order ;;
     Ok (serialize order (fields target_id instr_len is64bit be flags))).
Proof.
  destruct is64bit, be;
    cbv beta zeta iota delta
      [gen_headers to_bytes byteorder_of HEADER_SIZE EHDR_SIZE PHTB_SIZE
       ADDR_SIZE];
    destruct (target_id <? 0); try reflexivity;
    destruct (2 ^ (8 * Z.of_nat 2) <=? target_id); try reflexivity;
    destruct (flags <? 0); try reflexivity;
    destruct (2 ^ (8 * Z.of_nat 4) <=? flags); try reflexivity;
    match goal with
    | |- context [?s + instr_len <? 0] => destruct (s + instr_len <? 0)
    end; try reflexivity;
    match goal with
    | |- context [?b <=? ?s + instr_len] => destruct (b <=? s + instr_len)
    end; reflexivity.
Qed.

Lemma gen_headers_returns target_id instr_len is64bit be flags :
  in_range target_id instr_len is64bit flags ->
  gen_headers target_id instr_len is64bit be flags
  = Ok (serialize (byteorder_of be)
          (fields target_id instr_len is64bit be flags)).
Proof.
  intros (Ht & Hf & Hs). rewrite gen_headers_unfold. cbv zeta.
  rewrite (to_bytes_fits _ _ _ Ht). cbn [bind].
  rewrite (to_bytes_fits _ _ _ Hf). cbn [bind].
  rewrite (to_bytes_fits _ _ _ Hs). reflexivity.
Qed.

Lemma gen_headers_raises target_id instr_len is64bit be flags :
  ~ in_range target_id instr_len is64bit flags ->
  exists msg,
    gen_headers target_id instr_len is64bit be flags
    = Raise (OverflowError msg).
Proof.
  intros Hno. rewrite gen_headers_unfold. cbv zeta.
  destruct (fits_dec target_id 2) as [Ht | Ht].
  - rewrite (to_bytes_fits _ _ _ Ht). cbn [bind].
    destruct (fits_dec flags 4) as [Hf | Hf].
    + rewrite (to_bytes_fits _ _ _ Hf). cbn [bind].
      assert (Hs : ~ fits (HEADER_SIZE is64bit + instr_len)
                     (ADDR_SIZE is64bit))
        by (unfold in_range in Hno; tauto).
      destruct (to_bytes_overflow _ _ (byteorder_of be) Hs) as [msg ->].
      exists msg. reflexivity.
    + destruct (to_bytes_overflow _ _ (byteorder_of be) Hf) as [msg ->].
      exists msg. reflexivity.
  - destruct (to_bytes_overflow _ _ (byteorder_of be) Ht) as [msg ->].
    exists msg. reflexivity.
Qed.

Lemma in_range_dec target_id instr_len is64bit flags :
  {in_range target_id instr_len is64bit flags}
  + {~ in_range target_id instr_len is64bit flags}.
Proof.
  unfold in_range.
  destruct (fits_dec target_id 2); [| right; tauto].
  destruct (fits_dec flags 4); [| right; tauto].
  destruct (fits_dec (HEADER_SIZE is64bit + instr_len) (ADDR_SIZE is64bit));
    [left | right]; tauto.
Qed.

(** Whenever [gen_headers] returns, its arguments were in range and the
    result is the serialized field list. *)
Lemma gen_headers_inv target_id instr_len is64bit be flags bs :
  gen_headers target_id instr_len is64bit be flags = Ok bs ->
  in_range target_id instr_len is64bit flags
  /\ bs = serialize (byteorder_of be)
            (fields target_id instr_len is64bit be flags).
Proof.
  intros Hret.
  destruct (in_range_dec target_id instr_len is64bit flags) as [Hin | Hout].
  - split; [assumption |].
    rewrite (gen_headers_returns _ _ _ be _ Hin) in Hret. congruence.
  - destruct (gen_headers_raises _ _ _ be _ Hout) as [msg Hmsg]. congruence.
Qed.

(** ** Fields inside the serialized bytes *)

Lemma length_encode order f : List.length (encode order f) = f_width f.
Proof.
  destruct order; cbn [encode]; rewrite ?length_rev; apply length_le_split.
Qed.

Lemma length_serialize order fs :
  List.length (serialize order fs) = total_width fs.
Proof.
  induction fs as [| f fs IH]; cbn [serialize flat_map total_width fold_right].
  - reflexivity.
  - rewrite length_app, length_encode. unfold serialize in IH. now rewrite IH.
Qed.

(** The bytes of the [k]-th field sit at the offset given by the widths of
    the fields before it. *)
Lemma slice_field order fs k f :
  nth_error fs k = Some f ->
  slice (total_width (firstn k fs)) (f_width f) (serialize order fs)
  = encode order f.
Proof.
  revert k. induction fs as [| g fs IH]; intros [| k] Hk; cbn in Hk;
    try discriminate.
  - injection Hk as ->. unfold slice.
    cbn [firstn total_width fold_right skipn serialize flat_map].
    rewrite <- (length_encode order f) at 1.
    rewrite firstn_app, Nat.sub_diag, firstn_all. cbn [firstn].
    apply app_nil_r.
  - unfold slice in *.
    cbn [firstn total_width fold_right serialize flat_map].
    rewrite <- (length_encode order g) at 1.
    rewrite skipn_app, Nat.add_comm.
    rewrite Nat.add_sub.
    rewrite skipn_all2 by (rewrite length_encode; lia).
    cbn [app]. apply IH, Hk.
Qed.

Lemma from_bytes_encode order name val length :
  fits val length ->
  from_bytes (encode order (Field name val length)) order = val.
Proof.
  unfold fits. intros Hfit.
  destruct order; cbn [from_bytes encode f_width f_val];
    rewrite ?rev_involutive, le_combine_split, (Z.mul_comm (Z.of_nat length));
    apply Z.mod_small, Hfit.
Qed.

Lemma field_value order fs k name val w off :
  nth_error fs k = Some (Field name val w) ->
  total_width (firstn k fs) = off ->
  fits val w ->
  from_bytes (slice off w (serialize order fs)) order = val.
Proof.
  intros Hk <- Hfit.
  pose proof (slice_field order fs k _ Hk) as Hslice.
  cbn [f_width] in Hslice. rewrite Hslice. now apply from_bytes_encode.
Qed.

(** Replaces a returned header by the serialized field list and keeps the
    range facts of its arguments. *)
Ltac header_cases H :=
  apply gen_headers_inv in H;
  let Hin := fresh "Hin" in
  destruct H as [Hin ->].

Ltac list_compute := cbv - [byte.of_Z Z.shiftr Z.add]; reflexivity.

Lemma length_header target_id instr_len is64bit be flags bs :
  gen_headers target_id instr_len is64bit be flags = Ok bs ->
  List.length bs = (if is64bit then 120 else 84)%nat.
Proof.
  intros H. header_cases H. rewrite length_serialize.
  destruct is64bit; reflexivity.
Qed.

(** ** Length and fixed bytes of the header *)

(** C1: whatever the target, instruction length, flags and byte order, the
    bytes [gen_headers] returns are exactly 120 (64 + 56) in 64-bit mode and
    exactly 84 (52 + 32) in 32-bit mode. *)
Theorem gen_headers_length target_id instr_len is64bit be flags bs :
  gen_headers target_id instr_len is64bit be flags = Ok bs ->
  List.length bs = (if is64bit then 64 + 56 else 52 + 32)%nat.
Proof.
  intros H. rewrite (length_header _ _ _ _ _ _ H).
  destruct is64bit; reflexivity.
Qed.

Lemma gen_headers_length_witness :
  exists bs, gen_headers 62 4 true false 0 = Ok bs
             /\ List.length bs = 120%nat.
Proof.
  eexists. split.
  - vm_compute. reflexivity.
  - apply (gen_headers_length 62 4 true false 0). vm_compute. reflexivity.
Defined.

(** C7: every header [gen_headers] returns starts with the four magic bytes
    7F 45 4C 46. *)
Theorem gen_headers_magic target_id instr_len is64bit be flags bs :
  gen_headers target_id instr_len is64bit be flags = Ok bs ->
  firstn 4 bs = [Byte.x7f; Byte.x45; Byte.x4c; Byte.x46]
  /\ firstn 4 bs = Byte.x7f :: list_byte_of_string "ELF".
Proof.
  intros H. header_cases H.
  destruct is64bit, be; split; list_compute.
Qed.

Lemma gen_headers_magic_witness :
  exists bs, gen_headers 22 6 true true 0 = Ok bs
             /\ firstn 4 bs = [Byte.x7f; Byte.x45; Byte.x4c; Byte.x46].
Proof.
  eexists. split.
  - vm_compute. reflexivity.
  - apply (gen_headers_magic 22 6 true true 0). vm_compute. reflexivity.
Defined.

(** C6: [gen_headers(62, 4)] with the default arguments (64-bit,
    little-endian, flags 0) returns 120 bytes with byte 4 = 02, byte 5 = 01,
    bytes 18-19 = 3E 00 and the last eight bytes 02 00 00 00 00 00 00 00,
    the little-endian encoding of the alignment 2. *)
Theorem gen_headers_x86_64 :
  exists bs,
    gen_headers 62 4 true false 0 = Ok bs
    /\ List.length bs = 120%nat
    /\ nth_error bs 4 = Some Byte.x02
    /\ nth_error bs 5 = Some Byte.x01
    /\ slice 18 2 bs = [Byte.x3e; Byte.x00]
    /\ skipn 112 bs
       = [Byte.x02; Byte.x00; Byte.x00; Byte.x00;
          Byte.x00; Byte.x00; Byte.x00; Byte.x00]
    /\ from_bytes (skipn 112 bs) little = 2
    /\ from_bytes (slice 18 2 bs) little = 62.
Proof.
  eexists. split; [vm_compute; reflexivity |].
  repeat split; vm_compute; reflexivity.
Qed.

(** ** Out-of-range arguments *)

(** C10: a [target_id] that is negative or at least 2^16, and likewise a
    [flags] that is negative or at least 2^32, makes [gen_headers] raise
    [OverflowError] instead of returning bytes. *)
Theorem gen_headers_overflow target_id instr_len is64bit be flags :
  target_id < 0 \/ 2 ^ 16 <= target_id \/ flags < 0 \/ 2 ^ 32 <= flags ->
  exists msg,
    gen_headers target_id instr_len is64bit be flags
    = Raise (OverflowError msg).
Proof.
  intros Hout. apply gen_headers_raises.
  unfold in_range, fits. cbn [Z.of_nat Pos.of_succ_nat Pos.succ Z.mul Pos.mul].
  lia.
Qed.

Lemma gen_headers_overflow_witness :
  (exists msg, gen_headers 65536 4 true false 0 = Raise (OverflowError msg))
  /\ (exists msg, gen_headers 62 4 false true (-1) = Raise (OverflowError msg)).
Proof.
  split.
  - apply (gen_headers_overflow 65536 4 true false 0). right. left.
    vm_compute. discriminate.
  - apply (gen_headers_overflow 62 4 false true (-1)). right. right. left.
    reflexivity.
Defined.

(** ** The [e_flags] argument *)

(** C9: with the other arguments fixed, two calls that differ only in
    [flags] return headers that agree on every byte outside the four bytes of
    [e_flags] (48-51 in 64-bit mode, 36-39 in 32-bit mode), and those four
    bytes hold the respective [flags]. *)
Theorem gen_headers_flags_frame
  target_id instr_len is64bit be flags1 flags2 bs1 bs2 :
  gen_headers target_id instr_len is64bit be flags1 = Ok bs1 ->
  gen_headers target_id instr_len is64bit be flags2 = Ok bs2 ->
  let off := (if is64bit then 48 else 36)%nat in
  firstn off bs1 = firstn off bs2
  /\ skipn (off + 4) bs1 = skipn (off + 4) bs2
  /\ from_bytes (slice off 4 bs1) (byteorder_of be) = flags1
  /\ from_bytes (slice off 4 bs2) (byteorder_of be) = flags2
  /\ (forall i, (i < off \/ off + 4 <= i)%nat ->
                nth_error bs1 i = nth_error bs2 i).
Proof.
  intros H1 H2 off.
  assert (Hpre : firstn off bs1 = firstn off bs2
                 /\ skipn (off + 4) bs1 = skipn (off + 4) bs2).
  { apply gen_headers_inv in H1, H2.
    destruct H1 as [_ ->], H2 as [_ ->]. subst off.
    destruct is64bit, be; split; list_compute. }
  destruct Hpre as [Hfirst Hskip].
  repeat split; try assumption.
  - header_cases H1. destruct Hin as (_ & Hf & _). subst off.
    apply field_value with (k := 22%nat) (name := "e_flags"%string);
      [destruct is64bit; reflexivity .. | assumption].
  - header_cases H2. destruct Hin as (_ & Hf & _). subst off.
    apply field_value with (k := 22%nat) (name := "e_flags"%string);
      [destruct is64bit; reflexivity .. | assumption].
  - intros i [Hi | Hi].
    + rewrite <- (firstn_skipn off bs1), <- (firstn_skipn off bs2), Hfirst.
      assert (Hlen : List.length bs2 = (if is64bit then 120 else 84)%nat)
        by (apply (length_header _ _ _ _ _ _ H2)).
      rewrite !nth_error_app1; trivial;
        rewrite length_firstn; subst off; destruct is64bit; lia.
    + replace i with ((off + 4) + (i - (off + 4)))%nat by lia.
      rewrite <- !nth_error_skipn, Hskip. reflexivity.
Qed.

Lemma gen_headers_flags_frame_witness :
  exists bs1 bs2,
    gen_headers 243 10 true false 0 = Ok bs1
    /\ gen_headers 243 10 true false 5 = Ok bs2
    /\ firstn 48 bs1 = firstn 48 bs2
    /\ skipn 52 bs1 = skipn 52 bs2
    /\ from_bytes (slice 48 4 bs2) little = 5.
Proof.
  do 2 eexists.
  split; [vm_compute; reflexivity |].
  split; [vm_compute; reflexivity |].
  destruct (gen_headers_flags_frame 243 10 true false 0 5 _ _ eq_refl eq_refl)
    as (Hfirst & Hskip & _ & Hflags & _).
  exact (conj Hfirst (conj Hskip Hflags)).
Defined.

(** ** The fields of the two headers *)

(** Reads the [k]-th field of a returned header back, once the word size is
    fixed. *)
Ltac read_field idx nm :=
  apply field_value with (k := idx) (name := nm);
  [reflexivity | reflexivity | first [assumption | fits_const]].

(** C3: the one program-header entry has type PT_LOAD and permission flags
    PF_R | PF_X without the write bit.  In a 64-bit header the four bytes of
    the flags follow the four bytes of the type; in a 32-bit header they sit
    right before the alignment field, which ends the entry. *)
Theorem gen_headers_phdr target_id instr_len is64bit be flags bs :
  gen_headers target_id instr_len is64bit be flags = Ok bs ->
  let order := byteorder_of be in
  let ph := (if is64bit then 64 else 52)%nat in
  let A := ADDR_SIZE is64bit in
  List.length (skipn ph bs) = (if is64bit then 56 else 32)%nat
  /\ from_bytes (slice (if is64bit then 56 else 44) 2 bs) order = 1
  /\ from_bytes (slice ph 4 bs) order = PT_LOAD
  /\ from_bytes (slice (if is64bit then ph + 4 else ph + 24) 4 bs) order
     = Z.lor PF_R PF_X
  /\ Z.land (Z.lor PF_R PF_X) PF_W = 0
  /\ from_bytes (slice (if is64bit then ph + 48 else ph + 28) A bs) order = 2
  /\ ((if is64bit then ph + 48 else ph + 28) + A)%nat = List.length bs.
Proof.
  intros H order ph A.
  pose proof (length_header _ _ _ _ _ _ H) as Hlen.
  header_cases H. subst order ph A.
  split; [rewrite length_skipn, Hlen; destruct is64bit; reflexivity |].
  split; [destruct is64bit; read_field 25%nat "e_phnum"%string |].
  split; [destruct is64bit; read_field 29%nat "p_type"%string |].
  split; [destruct is64bit;
          [read_field 30%nat "p_flags"%string
          | read_field 35%nat "p_flags"%string] |].
  split; [reflexivity |].
  split; [destruct is64bit; read_field 36%nat "p_align"%string |].
  rewrite Hlen. destruct is64bit; reflexivity.
Qed.

Lemma gen_headers_phdr_witness :
  exists bs,
    gen_headers 3 7 false false 0 = Ok bs
    /\ from_bytes (slice 52 4 bs) little = 1
    /\ from_bytes (slice 76 4 bs) little = 5
    /\ from_bytes (slice 80 4 bs) little = 2
    /\ List.length bs = 84%nat.
Proof.
  eexists. split; [vm_compute; reflexivity |].
  destruct (gen_headers_phdr 3 7 false false 0 _ eq_refl)
    as (_ & _ & Htype & Hflags & _ & Halign & Hend).
  exact (conj Htype (conj Hflags (conj Halign eq_refl))).
Defined.

(** C4: [e_entry] holds 0x10000 plus the combined header size (120 or 84),
    [e_phoff] holds the size of the file header (64 or 52), and the load
    address 0x10000 in [p_vaddr] is the same for every [target_id]. *)
Theorem gen_headers_entry target_id instr_len is64bit be flags bs :
  gen_headers target_id instr_len is64bit be flags = Ok bs ->
  let order := byteorder_of be in
  let A := ADDR_SIZE is64bit in
  from_bytes (slice 24 A bs) order
  = 0x10000 + (if is64bit then 120 else 84)
  /\ from_bytes (slice (24 + A) A bs) order = (if is64bit then 64 else 52)
  /\ from_bytes (slice (if is64bit then 80 else 60) A bs) order = 0x10000.
Proof.
  intros H order A. header_cases H. subst order A.
  split; [destruct is64bit; read_field 19%nat "e_entry"%string |].
  split; [destruct is64bit; read_field 20%nat "e_phoff"%string |].
  destruct is64bit;
    [read_field 32%nat "p_vaddr"%string | read_field 31%nat "p_vaddr"%string].
Qed.

Lemma gen_headers_entry_witness :
  exists bs,
    gen_headers 183 12 true false 0 = Ok bs
    /\ from_bytes (slice 24 8 bs) little = 65656
    /\ from_bytes (slice 32 8 bs) little = 64.
Proof.
  eexists. split; [vm_compute; reflexivity |].
  destruct (gen_headers_entry 183 12 true false 0 _ eq_refl)
    as (Hentry & Hphoff & _).
  split; [exact Hentry | exact Hphoff].
Defined.

(** C5: [p_filesz] and [p_memsz] hold the same value, the combined header
    size plus [instr_len]. *)
Theorem gen_headers_sizes target_id instr_len is64bit be flags bs :
  gen_headers target_id instr_len is64bit be flags = Ok bs ->
  let order := byteorder_of be in
  let A := ADDR_SIZE is64bit in
  let filesz := slice (if is64bit then 96 else 68) A bs in
  let memsz := slice (if is64bit then 104 else 72) A bs in
  from_bytes filesz order = (if is64bit then 120 else 84) + instr_len
  /\ from_bytes memsz order = (if is64bit then 120 else 84) + instr_len
  /\ filesz = memsz.
Proof.
  intros H order A filesz memsz.
  assert (Hraw : filesz = memsz).
  { subst filesz memsz A. apply gen_headers_inv in H. destruct H as [_ ->].
    destruct is64bit, be; list_compute. }
  header_cases H. destruct Hin as (_ & _ & Hs).
  subst order A filesz memsz.
  split; [| split; [| exact Hraw]].
  - destruct is64bit; read_field 34%nat "p_filesz"%string
    || read_field 33%nat "p_filesz"%string.
  - destruct is64bit; read_field 35%nat "p_memsz"%string
    || read_field 34%nat "p_memsz"%string.
Qed.

Lemma gen_headers_sizes_witness :
  exists bs,
    gen_headers 62 4 true false 0 = Ok bs
    /\ from_bytes (slice 96 8 bs) little = 124
    /\ from_bytes (slice 104 8 bs) little = 124.
Proof.
  eexists. split; [vm_compute; reflexivity |].
  destruct (gen_headers_sizes 62 4 true false 0 _ eq_refl)
    as (Hfile & Hmem & _).
  split; [exact Hfile | exact Hmem].
Defined.

(** ** Byte order *)

Lemma widths_fields target_id instr_len is64bit be flags :
  map f_width (fields target_id instr_len is64bit be flags) = widths is64bit.
Proof. destruct is64bit; reflexivity. Qed.

Lemma firstn_encode order f (tl : bytes) :
  firstn (f_width f) (encode order f ++ tl) = encode order f.
Proof.
  rewrite <- (length_encode order f) at 1.
  rewrite firstn_app, Nat.sub_diag, firstn_all. apply app_nil_r.
Qed.

Lemma skipn_encode order f (tl : bytes) :
  skipn (f_width f) (encode order f ++ tl) = tl.
Proof.
  rewrite <- (length_encode order f) at 1.
  rewrite skipn_app, Nat.sub_diag, skipn_all. reflexivity.
Qed.

Lemma split_serialize order fs :
  split_fields (map f_width fs) (serialize order fs) = map (encode order) fs.
Proof.
  induction fs as [| f fs IH]; cbn [map split_fields serialize flat_map].
  - reflexivity.
  - rewrite firstn_encode, skipn_encode.
    unfold serialize in IH. rewrite IH. reflexivity.
Qed.

Lemma concat_encode order fs :
  List.concat (map (encode order) fs) = serialize order fs.
Proof.
  symmetry. apply flat_map_concat_map.
Qed.

Lemma rev_single (c : bytes) : List.length c = 1%nat -> rev c = c.
Proof.
  destruct c as [| b [| b' c]]; cbn; intros; try discriminate; reflexivity.
Qed.

(** Apart from [EI_DATA], the field lists of the two byte orders agree. *)
Lemma fields_endianness target_id instr_len is64bit flags i :
  i <> EI_DATA ->
  nth_error (fields target_id instr_len is64bit true flags) i
  = nth_error (fields target_id instr_len is64bit false flags) i.
Proof.
  unfold EI_DATA. intros Hi.
  destruct is64bit;
    do 37 (destruct i as [| i]; [reflexivity || congruence |]);
    destruct i; reflexivity.
Qed.

Lemma gen_headers_split target_id instr_len is64bit be flags bs :
  gen_headers target_id instr_len is64bit be flags = Ok bs ->
  split_fields (widths is64bit) bs
  = map (encode (byteorder_of be))
      (fields target_id instr_len is64bit be flags).
Proof.
  intros H. header_cases H.
  rewrite <- (widths_fields target_id instr_len is64bit be flags).
  apply split_serialize.
Qed.

(** C2 as amended: a big-endian header is the little-endian header with the
    bytes of every field reversed, except for the [EI_DATA] byte, which is 01
    in the little-endian and 02 in the big-endian header; every other
    single-byte field is the same in both. *)
Theorem gen_headers_endianness target_id instr_len is64bit flags le :
  gen_headers target_id instr_len is64bit false flags = Ok le ->
  exists be_,
    gen_headers target_id instr_len is64bit true flags = Ok be_
    /\ List.concat (split_fields (widths is64bit) le) = le
    /\ List.concat (split_fields (widths is64bit) be_) = be_
    /\ (forall i, i <> EI_DATA ->
          nth_error (split_fields (widths is64bit) be_) i
          = option_map (@rev byte)
              (nth_error (split_fields (widths is64bit) le) i))
    /\ (forall i, i <> EI_DATA ->
          nth_error (widths is64bit) i = Some 1%nat ->
          nth_error (split_fields (widths is64bit) be_) i
          = nth_error (split_fields (widths is64bit) le) i)
    /\ nth_error (split_fields (widths is64bit) le) EI_DATA
       = Some [Byte.x01]
    /\ nth_error (split_fields (widths is64bit) be_) EI_DATA
       = Some [Byte.x02].
Proof.
  intros Hle.
  pose proof (gen_headers_split _ _ _ _ _ _ Hle) as Sle.
  destruct (gen_headers_inv _ _ _ _ _ _ Hle) as [Hin Ele].
  pose proof (gen_headers_returns _ _ _ true _ Hin) as Hbe.
  pose proof (gen_headers_split _ _ _ _ _ _ Hbe) as Sbe.
  eexists. split; [exact Hbe |].
  rewrite Sle, Sbe. cbn [byteorder_of].
  assert (Hrev : forall i, i <> EI_DATA ->
            nth_error (map (encode big)
                         (fields target_id instr_len is64bit true flags)) i
            = option_map (@rev byte)
                (nth_error (map (encode little)
                   (fields target_id instr_len is64bit false flags)) i)).
  { intros i Hi. rewrite !nth_error_map, (fields_endianness _ _ _ _ _ Hi).
    destruct (nth_error _ i); reflexivity. }
  split; [rewrite concat_encode; symmetry; exact Ele |].
  split; [apply concat_encode |].
  split; [exact Hrev |].
  split.
  - intros i Hi Hw. rewrite (Hrev i Hi).
    rewrite <- (widths_fields target_id instr_len is64bit false flags) in Hw.
    rewrite nth_error_map in Hw |- *.
    destruct (nth_error _ i) as [f |]; [| discriminate].
    cbn [option_map] in *. rewrite rev_single; [reflexivity |].
    rewrite length_encode. congruence.
  - split; destruct is64bit; reflexivity.
Qed.

Lemma gen_headers_endianness_witness :
  exists le be_,
    gen_headers 22 6 true false 0 = Ok le
    /\ gen_headers 22 6 true true 0 = Ok be_
    /\ nth_error (split_fields (widths true) be_) 17
       = option_map (@rev byte) (nth_error (split_fields (widths true) le) 17).
Proof.
  eexists.
  destruct (gen_headers_endianness 22 6 true 0 _ eq_refl)
    as (be_ & Hbe & _ & _ & Hrev & _).
  exists be_. split; [reflexivity |]. split; [exact Hbe |].
  apply Hrev. discriminate.
Defined.

(** C2 as stated fails: the single-byte [EI_DATA] field is not the same in
    the two headers of [gen_headers(62, 4)]. *)
Lemma endianness_counterexample : ~ endianness_only_reverses 62 4 true 0.
Proof.
  intros Hall.
  specialize (Hall _ _ eq_refl eq_refl).
  apply (f_equal (fun chunks => nth_error chunks EI_DATA)) in Hall.
  vm_compute in Hall. discriminate.
Qed.

(** ** The comparator *)

Lemma bytes_ne_false (a b : bytes) : bytes_ne a b = false <-> a = b.
Proof.
  unfold bytes_ne. destruct (list_eq_dec Byte.byte_eq_dec a b); split;
    congruence.
Qed.

Lemma bytes_ne_true (a b : bytes) : bytes_ne a b = true <-> a <> b.
Proof.
  unfold bytes_ne. destruct (list_eq_dec Byte.byte_eq_dec a b); split;
    congruence.
Qed.

(** None of the five [gen_headers] calls of the script raises. *)
Lemma expected_ok (a : arch) : exists e, expected a = Ok e.
Proof. destruct a; eexists; vm_compute; reflexivity. Qed.

Lemma In_all_archs (a : arch) : In a all_archs.
Proof. destruct a; cbn; tauto. Qed.

Lemma NoDup_all_archs : NoDup all_archs.
Proof. repeat constructor; cbn; intuition discriminate. Qed.

Lemma arch_name_inj (a a' : arch) : arch_name a = arch_name a' -> a = a'.
Proof. destruct a, a'; cbn; intros H; try reflexivity; discriminate H. Qed.

Lemma In_mismatches dir a :
  In a (mismatches dir) <-> fixture_differs dir a = true.
Proof.
  unfold mismatches. rewrite filter_In. pose proof (In_all_archs a). tauto.
Qed.

(** With the five fixtures in place, the script runs to its [sys.exit]: it
    has printed the diagnostics of the mismatching fixtures, in the order of
    the source, and exits with their number. *)
Lemma check_bins_report (dir : directory) :
  (forall a, dir (arch_name a) <> None) ->
  check_bins dir
  = Ok (Outcome (flat_map (diagnostic dir) (mismatches dir))
          (Z.of_nat (List.length (mismatches dir)))).
Proof.
  intros Hdir.
  destruct (expected_ok arm64) as [e1 E1], (expected_ok i386) as [e2 E2],
    (expected_ok riscv64) as [e3 E3], (expected_ok s390x) as [e4 E4],
    (expected_ok x86_64) as [e5 E5].
  cbn [expected] in E1, E2, E3, E4, E5.
  pose proof (Hdir arm64) as D1. pose proof (Hdir i386) as D2.
  pose proof (Hdir riscv64) as D3. pose proof (Hdir s390x) as D4.
  pose proof (Hdir x86_64) as D5. cbn [arch_name] in D1, D2, D3, D4, D5.
  destruct (dir "arm64"%string) as [c1 |] eqn:F1; [clear D1 | contradiction].
  destruct (dir "i386"%string) as [c2 |] eqn:F2; [clear D2 | contradiction].
  destruct (dir "riscv64"%string) as [c3 |] eqn:F3; [clear D3 | contradiction].
  destruct (dir "s390x"%string) as [c4 |] eqn:F4; [clear D4 | contradiction].
  destruct (dir "x86_64"%string) as [c5 |] eqn:F5; [clear D5 | contradiction].
  unfold mismatches, all_archs, fixture_differs, check_bins, read_bytes.
  cbn [filter arch_name expected].
  rewrite E1, E2, E3, E4, E5, F1, F2, F3, F4, F5. cbn [bind].
  destruct (bytes_ne c1 e1), (bytes_ne c2 e2), (bytes_ne c3 e3),
    (bytes_ne c4 e4), (bytes_ne c5 e5);
    cbn [flat_map diagnostic app arch_name expected];
    rewrite ?E3, ?F3; reflexivity.
Qed.

(** A mismatch line in the output names a fixture that mismatches. *)
Lemma In_diagnostic dir a a' :
  In (mismatch_line a) (diagnostic dir a') <-> a = a'.
Proof.
  split.
  - destruct a, a'; cbn; intros H; try reflexivity;
      repeat (destruct H as [H | H]; [discriminate H |]);
      destruct H.
  - intros <-. destruct a; cbn; tauto.
Qed.

Lemma In_report dir a (l : list arch) :
  In (mismatch_line a) (flat_map (diagnostic dir) l) <-> In a l.
Proof.
  rewrite in_flat_map. split.
  - intros (a' & Hin & Hline). apply In_diagnostic in Hline. now subst a'.
  - intros Hin. exists a. split; [exact Hin | now apply In_diagnostic].
Qed.

Lemma filter_none {A} (f : A -> bool) (l : list A) :
  List.length (filter f l) = 0%nat <-> forall x, In x l -> f x = false.
Proof.
  induction l as [| y l IH]; cbn.
  - split; [intros _ x [] | reflexivity].
  - destruct (f y) eqn:Ey; cbn.
    + split; [discriminate |].
      intros H. specialize (H y (or_introl eq_refl)). congruence.
    + rewrite IH. split.
      * intros H x [<- | Hx]; auto.
      * intros H x Hx. apply H. now right.
Qed.

(** Turning one element of a duplicate-free list from rejected to selected
    lengthens the selection by one. *)
Lemma filter_one_more {A} (f g : A -> bool) (a : A) (l : list A) :
  NoDup l -> In a l -> f a = false -> g a = true ->
  (forall x, x <> a -> g x = f x) ->
  List.length (filter g l) = S (List.length (filter f l)).
Proof.
  intros Hnd Hin Hf Hg Hother.
  induction l as [| y l IH]; [destruct Hin |].
  inversion Hnd as [| y' l' Hy Hnd']; subst.
  assert (Hsame : ~ In a l -> filter g l = filter f l).
  { intros Hnot. apply filter_ext_in. intros x Hx. apply Hother.
    intros ->. contradiction. }
  cbn [filter]. destruct Hin as [-> | Hin].
  - rewrite Hf, Hg, (Hsame Hy). reflexivity.
  - assert (Hya : y <> a) by (intros ->; contradiction).
    rewrite (Hother y Hya). specialize (IH Hnd' Hin).
    destruct (f y); cbn [List.length]; rewrite IH; reflexivity.
Qed.

Lemma mutate_changes i b old (bs : bytes) :
  nth_error bs i = Some old -> b <> old -> mutate i b bs <> bs.
Proof.
  intros Hold Hb Heq.
  assert (Hi : (i < List.length bs)%nat)
    by (apply nth_error_Some; congruence).
  assert (Hnew : nth_error (mutate i b bs) i = Some b).
  { unfold mutate. rewrite nth_error_app2; rewrite length_firstn;
      [| lia].
    replace (i - Nat.min i (List.length bs))%nat with 0%nat by lia.
    reflexivity. }
  rewrite Heq in Hnew. congruence.
Qed.

Lemma write_bytes_same dir name content :
  write_bytes dir name content name = Some content.
Proof. unfold write_bytes. now rewrite String.eqb_refl. Qed.

Lemma write_bytes_other dir name content n :
  n <> name -> write_bytes dir name content n = dir n.
Proof.
  intros Hn. unfold write_bytes.
  destruct (String.eqb_spec n name); [contradiction | reflexivity].
Qed.

(** C8: with the five fixtures in place the script exits with the number of
    fixtures that differ from the expected bytes, 0 when all five match; it
    prints the mismatch line of every differing fixture, whichever differed
    before it; and overwriting one byte of a fixture that matched with
    another value adds exactly one mismatch, so that a run in which all five
    matched now reports that fixture alone and exits with 1. *)
Theorem check_bins_exit_status (dir : directory) :
  (forall a, dir (arch_name a) <> None) ->
  exists out,
    check_bins dir = Ok out
    /\ exit_status out = Z.of_nat (List.length (mismatches dir))
    /\ (exit_status out = 0 <-> forall a, fixture_differs dir a = false)
    /\ (forall a,
          In (mismatch_line a) (stdout out) <-> fixture_differs dir a = true)
    /\ (forall a content i old b,
          dir (arch_name a) = Some content ->
          fixture_differs dir a = false ->
          nth_error content i = Some old ->
          b <> old ->
          exists out',
            check_bins (write_bytes dir (arch_name a) (mutate i b content))
            = Ok out'
            /\ exit_status out' = exit_status out + 1
            /\ (exit_status out = 0 ->
                exit_status out' = 1
                /\ forall a',
                     In (mismatch_line a') (stdout out') <-> a' = a)).
Proof.
  intros Hdir. eexists. split; [apply (check_bins_report dir Hdir) |].
  cbn [exit_status stdout].
  assert (Hzero : Z.of_nat (List.length (mismatches dir)) = 0
                  <-> forall a, fixture_differs dir a = false).
  { unfold mismatches. rewrite <- Nat2Z.inj_0, Nat2Z.inj_iff, filter_none.
    split; [intros H a; apply H, In_all_archs | intros H a _; apply H]. }
  split; [reflexivity |]. split; [exact Hzero |].
  split; [intros a; rewrite In_report; apply In_mismatches |].
  intros a content i old b Hcontent Hsame Hold Hb.
  set (dir' := write_bytes dir (arch_name a) (mutate i b content)).
  assert (Hdir' : forall a0, dir' (arch_name a0) <> None).
  { intros a0. unfold dir', write_bytes.
    destruct (String.eqb (arch_name a0) (arch_name a));
      [discriminate | apply Hdir]. }
  assert (Hdiff : fixture_differs dir' a = true).
  { unfold fixture_differs in *. unfold dir'. rewrite write_bytes_same.
    rewrite Hcontent in Hsame.
    destruct (expected a) as [e |]; [| reflexivity].
    apply bytes_ne_false in Hsame. subst e.
    apply bytes_ne_true. eapply mutate_changes; eassumption. }
  assert (Hother : forall x, x <> a ->
            fixture_differs dir' x = fixture_differs dir x).
  { intros x Hx. unfold fixture_differs, dir'.
    rewrite write_bytes_other; [reflexivity |].
    intros Hname. apply Hx, arch_name_inj, Hname. }
  assert (Hcount : List.length (mismatches dir')
                   = S (List.length (mismatches dir))).
  { apply (filter_one_more (fixture_differs dir) (fixture_differs dir') a);
      auto using NoDup_all_archs, In_all_archs. }
  eexists. split; [apply (check_bins_report dir' Hdir') |].
  cbn [exit_status stdout]. split; [rewrite Hcount; lia |].
  intros Hall. split; [rewrite Hcount; lia |].
  intros a'. rewrite In_report, In_mismatches.
  destruct Hzero as [Hzero _]. specialize (Hzero Hall).
  split.
  - intros Ha'. destruct a, a'; try reflexivity;
      rewrite Hother in Ha' by discriminate;
      rewrite Hzero in Ha'; discriminate Ha'.
  - intros ->. exact Hdiff.
Qed.

Lemma check_bins_exit_status_witness :
  exists out out',
    check_bins expected_dir = Ok out
    /\ exit_status out = 0
    /\ check_bins
         (write_bytes expected_dir "x86_64"
            (mutate 4 Byte.x01
               (match expected x86_64 with Ok e => e | Raise _ => [] end)))
       = Ok out'
    /\ exit_status out' = 1.
Proof.
  assert (Hdir : forall a, expected_dir (arch_name a) <> None)
    by (intros a; destruct a; vm_compute; discriminate).
  destruct (check_bins_exit_status expected_dir Hdir)
    as (out & Hrun & Hexit & _ & _ & Hmut).
  assert (Hzero : exit_status out = 0)
    by (rewrite Hexit; vm_compute; reflexivity).
  destruct (Hmut x86_64
              (match expected x86_64 with Ok e => e | Raise _ => [] end)
              4%nat Byte.x02 Byte.x01)
    as (out' & Hrun' & Hexit' & _).
  - vm_compute. reflexivity.
  - vm_compute. reflexivity.
  - vm_compute. reflexivity.
  - discriminate.
  - exists out, out'. rewrite Hexit', Hzero.
    exact (conj Hrun (conj eq_refl (conj Hrun' eq_refl))).
Defined.

(** * Further properties of the code *)

(** ** [int_encode] *)

(** X9: [int_encode] returns exactly when the value is non-negative and fits
    the requested number of bytes; it then returns that many bytes, and
    reading them back in the same byte order gives the value.  Otherwise it
    raises [OverflowError]. *)
Theorem int_encode_round_trip (be : bool) (val : Z) (length : nat) :
  match int_encode be val length with
  | Ok bs =>
      fits val length
      /\ List.length bs = length
      /\ from_bytes bs (if be then big else little) = val
  | Raise e => ~ fits val length /\ exists msg, e = OverflowError msg
  end.
Proof.
  unfold int_encode.
  destruct (fits_dec val length) as [Hfit | Hno].
  - rewrite (to_bytes_fits _ _ _ Hfit).
    split; [exact Hfit |].
    split; [apply length_encode | now apply from_bytes_encode].
  - destruct (to_bytes_overflow val length (if be then big else little) Hno)
      as [msg ->].
    split; [exact Hno | now exists msg].
Qed.


(** ** When [gen_headers] returns *)

(** X1: [gen_headers] returns bytes exactly when [target_id] fits two bytes,
    [flags] fits four bytes and the segment size, header size plus
    [instr_len], is non-negative and fits an address; a negative
    [instr_len] is accepted as long as the sum is not negative. *)
Theorem gen_headers_returns_iff target_id instr_len is64bit be flags :
  (exists bs, gen_headers target_id instr_len is64bit be flags = Ok bs)
  <-> (0 <= target_id < 2 ^ 16
       /\ 0 <= flags < 2 ^ 32
       /\ 0 <= (if is64bit then 120 else 84) + instr_len
          < (if is64bit then 2 ^ 64 else 2 ^ 32)).
Proof.
  assert (Hrange : in_range target_id instr_len is64bit flags
                   <-> (0 <= target_id < 2 ^ 16
                        /\ 0 <= flags < 2 ^ 32
                        /\ 0 <= (if is64bit then 120 else 84) + instr_len
                           < (if is64bit then 2 ^ 64 else 2 ^ 32))).
  { unfold in_range, fits. destruct is64bit;
      cbv [HEADER_SIZE EHDR_SIZE PHTB_SIZE ADDR_SIZE];
      cbn [Z.of_nat Pos.of_succ_nat Pos.succ Z.mul Pos.mul]; lia. }
  rewrite <- Hrange. split.
  - intros [bs Hbs]. apply (gen_headers_inv _ _ _ _ _ _ Hbs).
  - intros Hin. rewrite (gen_headers_returns _ _ _ be _ Hin). eauto.
Qed.

(** X2: the exception of [gen_headers] is that of the first argument out of
    range, in the order [target_id], [flags], [instr_len]: a negative value
    and a value too big are reported with different messages. *)
Theorem gen_headers_first_overflow
  (target_id instr_len : Z) (is64bit be : bool) (flags : Z) :
  let negative := OverflowError "can't convert negative int to unsigned"%string in
  let too_big := OverflowError "int too big to convert"%string in
  let size := (if is64bit then 120 else 84) + instr_len in
  gen_headers target_id instr_len is64bit be flags
  = if target_id <? 0 then @Raise bytes negative
    else if 2 ^ 16 <=? target_id then @Raise bytes too_big
    else if flags <? 0 then @Raise bytes negative
    else if 2 ^ 32 <=? flags then @Raise bytes too_big
    else if size <? 0 then @Raise bytes negative
    else if (if is64bit then 2 ^ 64 else 2 ^ 32) <=? size then @Raise bytes too_big
    else Ok (serialize (byteorder_of be)
               (fields target_id instr_len is64bit be flags)).
Proof.
  cbv zeta. rewrite gen_headers_unfold. cbv zeta. unfold to_bytes.
  change (2 ^ (8 * Z.of_nat 2)) with (2 ^ 16).
  change (2 ^ (8 * Z.of_nat 4)) with (2 ^ 32).
  destruct (target_id <? 0); [reflexivity |].
  destruct (2 ^ 16 <=? target_id); [reflexivity |].
  destruct (flags <? 0); [reflexivity |].
  destruct (2 ^ 32 <=? flags); [reflexivity |].
  destruct is64bit; cbv [HEADER_SIZE EHDR_SIZE PHTB_SIZE ADDR_SIZE];
    cbn [bind].
  - change (64 + 56) with 120. change (2 ^ (8 * Z.of_nat 8)) with (2 ^ 64).
    destruct (120 + instr_len <? 0); [reflexivity |].
    destruct (2 ^ 64 <=? 120 + instr_len); reflexivity.
  - change (52 + 32) with 84. change (2 ^ (8 * Z.of_nat 4)) with (2 ^ 32).
    destruct (84 + instr_len <? 0); [reflexivity |].
    destruct (2 ^ 32 <=? 84 + instr_len); reflexivity.
Qed.

(** ** What the header holds *)

(** The value of the [k]-th field, read back from a returned header. *)
Lemma header_read target_id instr_len is64bit be flags bs k name val w off :
  gen_headers target_id instr_len is64bit be flags = Ok bs ->
  nth_error (fields target_id instr_len is64bit be flags) k
  = Some (Field name val w) ->
  total_width (firstn k (fields target_id instr_len is64bit be flags)) = off ->
  fits val w ->
  read off w be bs = val.
Proof.
  intros H Hk Hoff Hfit. apply gen_headers_inv in H. destruct H as [_ ->].
  unfold read. now apply field_value with (k := k) (name := name).
Qed.

(** Reads field [idx] of the header returned in [H]; the word size must be
    fixed. *)
Ltac hread H idx nm :=
  apply (header_read _ _ _ _ _ _ idx nm _ _ _ H);
  [reflexivity | reflexivity | first [assumption | fits_const]].

Lemma length_header_Z target_id instr_len is64bit be flags bs :
  gen_headers target_id instr_len is64bit be flags = Ok bs ->
  len bs = if is64bit then 120 else 84.
Proof.
  intros H. unfold len. rewrite (length_header _ _ _ _ _ _ H).
  destruct is64bit; reflexivity.
Qed.

(** X3: a returned header declares no section-header table: [e_shoff],
    [e_shentsize], [e_shnum] and [e_shstrndx] all read 0. *)
Theorem gen_headers_no_sections
  (target_id instr_len : Z) (is64bit be : bool) (flags : Z) (bs : bytes) :
  gen_headers target_id instr_len is64bit be flags = Ok bs ->
  read (if is64bit then 40 else 32) (ADDR_SIZE is64bit) be bs = 0
  /\ read (if is64bit then 58 else 46) 2 be bs = 0
  /\ read (if is64bit then 60 else 48) 2 be bs = 0
  /\ read (if is64bit then 62 else 50) 2 be bs = 0.
Proof.
  intros H.
  split; [destruct is64bit; hread H 21%nat "e_shoff"%string |].
  split; [destruct is64bit; hread H 26%nat "e_shentsize"%string |].
  split; [destruct is64bit; hread H 27%nat "e_shnum"%string |].
  destruct is64bit; hread H 28%nat "e_shstrndx"%string.
Qed.

Lemma gen_headers_no_sections_witness :
  exists bs,
    gen_headers 3 7 false false 0 = Ok bs
    /\ read 32 4 false bs = 0 /\ read 48 2 false bs = 0.
Proof.
  eexists. split; [vm_compute; reflexivity |].
  destruct (gen_headers_no_sections 3 7 false false 0 _ eq_refl)
    as (Hshoff & _ & Hshnum & _).
  exact (conj Hshoff Hshnum).
Defined.

(** X4: after the magic, [e_ident] holds the class byte (02 for 64-bit, 01
    for 32-bit), the data-encoding byte (02 for big-endian, 01 for
    little-endian), the version byte 01 and nine zero bytes. *)
Theorem gen_headers_e_ident
  (target_id instr_len : Z) (is64bit be : bool) (flags : Z) (bs : bytes) :
  gen_headers target_id instr_len is64bit be flags = Ok bs ->
  slice 4 12 bs
  = (if is64bit then Byte.x02 else Byte.x01)
    :: (if be then Byte.x02 else Byte.x01)
    :: Byte.x01 :: repeat Byte.x00 9.
Proof.
  intros H. apply gen_headers_inv in H. destruct H as [_ ->].
  destruct is64bit, be; list_compute.
Qed.

Lemma gen_headers_e_ident_witness :
  exists bs,
    gen_headers 22 6 true true 0 = Ok bs
    /\ slice 4 12 bs = Byte.x02 :: Byte.x02 :: Byte.x01 :: repeat Byte.x00 9.
Proof.
  eexists. split; [vm_compute; reflexivity |].
  exact (gen_headers_e_ident 22 6 true true 0 _ eq_refl).
Defined.

(** X5: a returned header has type ET_EXEC (2) and version EV_CURRENT (1),
    and its [e_machine] field reads back the [target_id] that was passed. *)
Theorem gen_headers_machine
  (target_id instr_len : Z) (is64bit be : bool) (flags : Z) (bs : bytes) :
  gen_headers target_id instr_len is64bit be flags = Ok bs ->
  read 16 2 be bs = 2
  /\ read 18 2 be bs = target_id
  /\ read 20 4 be bs = 1.
Proof.
  intros H.
  destruct (proj1 (gen_headers_inv _ _ _ _ _ _ H)) as (Ht & _ & _).
  split; [destruct is64bit; hread H 16%nat "e_type"%string |].
  split; [destruct is64bit; hread H 17%nat "e_machine"%string |].
  destruct is64bit; hread H 18%nat "e_version"%string.
Qed.

Lemma gen_headers_machine_witness :
  exists bs,
    gen_headers 243 10 true false 5 = Ok bs /\ read 18 2 false bs = 243.
Proof.
  eexists. split; [vm_compute; reflexivity |].
  exact (proj1 (proj2 (gen_headers_machine 243 10 true false 5 _ eq_refl))).
Defined.

(** X6: a returned header describes itself: [e_ehsize] equals [e_phoff], the
    program-header table of [e_phnum] entries of [e_phentsize] bytes ends
    where the header ends, the entry point is the load address plus the
    length of the header, and the segment starts at file offset 0 with
    physical address 0. *)
Theorem gen_headers_self_consistent
  (target_id instr_len : Z) (is64bit be : bool) (flags : Z) (bs : bytes) :
  gen_headers target_id instr_len is64bit be flags = Ok bs ->
  let A := ADDR_SIZE is64bit in
  let e_entry := read 24 A be bs in
  let e_phoff := read (24 + A) A be bs in
  let e_ehsize := read (if is64bit then 52 else 40) 2 be bs in
  let e_phentsize := read (if is64bit then 54 else 42) 2 be bs in
  let e_phnum := read (if is64bit then 56 else 44) 2 be bs in
  let p_offset := read (if is64bit then 72 else 56) A be bs in
  let p_vaddr := read (if is64bit then 80 else 60) A be bs in
  let p_paddr := read (if is64bit then 88 else 64) A be bs in
  e_ehsize = e_phoff
  /\ e_phoff + e_phnum * e_phentsize = len bs
  /\ e_entry = p_vaddr + len bs
  /\ p_offset = 0
  /\ p_paddr = 0.
Proof.
  intros H A e_entry e_phoff e_ehsize e_phentsize e_phnum p_offset p_vaddr
    p_paddr.
  assert (E1 : e_entry = 0x10000 + (if is64bit then 120 else 84))
    by (subst e_entry A; destruct is64bit; hread H 19%nat "e_entry"%string).
  assert (E2 : e_phoff = if is64bit then 64 else 52)
    by (subst e_phoff A; destruct is64bit; hread H 20%nat "e_phoff"%string).
  assert (E3 : e_ehsize = if is64bit then 64 else 52)
    by (subst e_ehsize; destruct is64bit; hread H 23%nat "e_ehsize"%string).
  assert (E4 : e_phentsize = if is64bit then 56 else 32)
    by (subst e_phentsize; destruct is64bit;
        hread H 24%nat "e_phentsize"%string).
  assert (E5 : e_phnum = 1)
    by (subst e_phnum; destruct is64bit; hread H 25%nat "e_phnum"%string).
  assert (E6 : p_offset = 0)
    by (subst p_offset A; destruct is64bit;
        [hread H 31%nat "p_offset"%string | hread H 30%nat "p_offset"%string]).
  assert (E7 : p_vaddr = 0x10000)
    by (subst p_vaddr A; destruct is64bit;
        [hread H 32%nat "p_vaddr"%string | hread H 31%nat "p_vaddr"%string]).
  assert (E8 : p_paddr = 0)
    by (subst p_paddr A; destruct is64bit;
        [hread H 33%nat "p_paddr"%string | hread H 32%nat "p_paddr"%string]).
  rewrite E1, E2, E3, E4, E5, E6, E7, E8, (length_header_Z _ _ _ _ _ _ H).
  destruct is64bit; repeat split; reflexivity.
Qed.

Lemma gen_headers_self_consistent_witness :
  exists bs,
    gen_headers 3 7 false false 0 = Ok bs
    /\ read 28 4 false bs + read 44 2 false bs * read 42 2 false bs = len bs.
Proof.
  eexists. split; [vm_compute; reflexivity |].
  exact (proj1 (proj2
           (gen_headers_self_consistent 3 7 false false 0 _ eq_refl))).
Defined.

(** ** The header in front of the instructions *)

Lemma slice_app_l off n (a b : bytes) :
  (off + n <= List.length a)%nat -> slice off n (a ++ b) = slice off n a.
Proof.
  intros Hle. unfold slice.
  rewrite skipn_app, firstn_app, length_skipn.
  replace (off - List.length a)%nat with 0%nat by lia.
  replace (n - (List.length a - off))%nat with 0%nat by lia.
  cbn [skipn firstn]. apply app_nil_r.
Qed.

Lemma read_app_l off n be (a b : bytes) :
  (off + n <= List.length a)%nat -> read off n be (a ++ b) = read off n be a.
Proof. intros Hle. unfold read. now rewrite slice_app_l. Qed.

(** X7: when the header built for the length of an instruction stream is put
    in front of that stream, as the script does, the segment it describes is
    the whole file: it starts at file offset 0, [p_filesz] and [p_memsz]
    read the length of the file, and the entry point, taken relative to the
    load address, is the offset at which the instructions start. *)
Theorem gen_headers_covers_file
  (target_id : Z) (instrs : bytes) (is64bit be : bool) (flags : Z)
  (hdr : bytes) :
  gen_headers target_id (len instrs) is64bit be flags = Ok hdr ->
  let A := ADDR_SIZE is64bit in
  let file := hdr ++ instrs in
  let e_entry := read 24 A be file in
  let p_offset := read (if is64bit then 72 else 56) A be file in
  let p_vaddr := read (if is64bit then 80 else 60) A be file in
  let p_filesz := read (if is64bit then 96 else 68) A be file in
  let p_memsz := read (if is64bit then 104 else 72) A be file in
  p_offset = 0
  /\ p_filesz = len file
  /\ p_memsz = len file
  /\ skipn (Z.to_nat (e_entry - p_vaddr)) file = instrs.
Proof.
  intros H A file e_entry p_offset p_vaddr p_filesz p_memsz.
  pose proof (length_header _ _ _ _ _ _ H) as Hlen.
  destruct (proj1 (gen_headers_inv _ _ _ _ _ _ H)) as (_ & _ & Hs).
  assert (Hfile : len file = (if is64bit then 120 else 84) + len instrs).
  { unfold file, len. rewrite length_app, Hlen.
    destruct is64bit; lia. }
  assert (E1 : e_entry = 0x10000 + (if is64bit then 120 else 84)).
  { subst e_entry file A. rewrite read_app_l
      by (rewrite Hlen; destruct is64bit; cbn; lia).
    destruct is64bit; hread H 19%nat "e_entry"%string. }
  assert (E2 : p_offset = 0).
  { subst p_offset file A. rewrite read_app_l
      by (rewrite Hlen; destruct is64bit; cbn; lia).
    destruct is64bit;
      [hread H 31%nat "p_offset"%string | hread H 30%nat "p_offset"%string]. }
  assert (E3 : p_vaddr = 0x10000).
  { subst p_vaddr file A. rewrite read_app_l
      by (rewrite Hlen; destruct is64bit; cbn; lia).
    destruct is64bit;
      [hread H 32%nat "p_vaddr"%string | hread H 31%nat "p_vaddr"%string]. }
  assert (E4 : p_filesz = (if is64bit then 120 else 84) + len instrs).
  { subst p_filesz file A. rewrite read_app_l
      by (rewrite Hlen; destruct is64bit; cbn; lia).
    destruct is64bit;
      [hread H 34%nat "p_filesz"%string | hread H 33%nat "p_filesz"%string]. }
  assert (E5 : p_memsz = (if is64bit then 120 else 84) + len instrs).
  { subst p_memsz file A. rewrite read_app_l
      by (rewrite Hlen; destruct is64bit; cbn; lia).
    destruct is64bit;
      [hread H 35%nat "p_memsz"%string | hread H 34%nat "p_memsz"%string]. }
  rewrite E1, E2, E3, E4, E5, Hfile.
  split; [reflexivity |]. split; [reflexivity |]. split; [reflexivity |].
  replace (Z.to_nat (0x10000 + (if is64bit then 120 else 84) - 0x10000))
    with (List.length hdr) by (rewrite Hlen; destruct is64bit; reflexivity).
  unfold file. rewrite skipn_app, Nat.sub_diag, skipn_all. reflexivity.
Qed.

Lemma gen_headers_covers_file_witness :
  exists hdr,
    gen_headers 62 (len X86_64_INSTRUCTIONS) true false 0 = Ok hdr
    /\ read 96 8 false (hdr ++ X86_64_INSTRUCTIONS)
       = len (hdr ++ X86_64_INSTRUCTIONS).
Proof.
  eexists. split; [vm_compute; reflexivity |].
  exact (proj1 (proj2
           (gen_headers_covers_file 62 X86_64_INSTRUCTIONS true false 0 _
              eq_refl))).
Defined.

(** ** Distinct arguments, distinct headers *)

Lemma header_byte5 target_id instr_len is64bit be flags bs :
  gen_headers target_id instr_len is64bit be flags = Ok bs ->
  nth_error bs 5 = Some (if be then Byte.x02 else Byte.x01).
Proof.
  intros H. apply gen_headers_inv in H. destruct H as [_ ->].
  destruct is64bit, be; list_compute.
Qed.

(** X8: the header determines the arguments: two calls of [gen_headers]
    that return the same bytes were given the same [target_id],
    [instr_len], word size, byte order and [flags]. *)
Theorem gen_headers_injective
  (t1 n1 : Z) (w1 b1 : bool) (f1 t2 n2 : Z) (w2 b2 : bool) (f2 : Z)
  (bs : bytes) :
  gen_headers t1 n1 w1 b1 f1 = Ok bs ->
  gen_headers t2 n2 w2 b2 f2 = Ok bs ->
  t1 = t2 /\ n1 = n2 /\ w1 = w2 /\ b1 = b2 /\ f1 = f2.
Proof.
  intros H1 H2.
  assert (Hw : w1 = w2).
  { pose proof (length_header _ _ _ _ _ _ H1) as L1.
    pose proof (length_header _ _ _ _ _ _ H2) as L2.
    rewrite L1 in L2. destruct w1, w2; try reflexivity; discriminate L2. }
  assert (Hb : b1 = b2).
  { pose proof (header_byte5 _ _ _ _ _ _ H1) as B1.
    pose proof (header_byte5 _ _ _ _ _ _ H2) as B2.
    rewrite B1 in B2. destruct b1, b2; try reflexivity; discriminate B2. }
  subst w2 b2.
  destruct (proj1 (gen_headers_inv _ _ _ _ _ _ H1)) as (Ht1 & Hf1 & Hs1).
  destruct (proj1 (gen_headers_inv _ _ _ _ _ _ H2)) as (Ht2 & Hf2 & Hs2).
  assert (Et1 : read 18 2 b1 bs = t1)
    by (destruct w1; hread H1 17%nat "e_machine"%string).
  assert (Et2 : read 18 2 b1 bs = t2)
    by (destruct w1; hread H2 17%nat "e_machine"%string).
  assert (Ef1 : read (if w1 then 48 else 36) 4 b1 bs = f1)
    by (destruct w1; hread H1 22%nat "e_flags"%string).
  assert (Ef2 : read (if w1 then 48 else 36) 4 b1 bs = f2)
    by (destruct w1; hread H2 22%nat "e_flags"%string).
  assert (En1 : read (if w1 then 96 else 68) (ADDR_SIZE w1) b1 bs
                = (if w1 then 120 else 84) + n1)
    by (destruct w1;
        [hread H1 34%nat "p_filesz"%string
        | hread H1 33%nat "p_filesz"%string]).
  assert (En2 : read (if w1 then 96 else 68) (ADDR_SIZE w1) b1 bs
                = (if w1 then 120 else 84) + n2)
    by (destruct w1;
        [hread H2 34%nat "p_filesz"%string
        | hread H2 33%nat "p_filesz"%string]).
  repeat split; lia.
Qed.

Lemma gen_headers_injective_witness :
  62 = 62 /\ 4 = 4 /\ true = true /\ false = false /\ 0 = 0.
Proof.
  exact (gen_headers_injective 62 4 true false 0 62 4 true false 0 _
           eq_refl eq_refl).
Defined.

(** ** Runs of the script *)

Lemma first_missing_none dir :
  first_missing dir = None <-> forall a, dir (arch_name a) <> None.
Proof.
  unfold first_missing. split.
  - intros Hnone a Ha.
    pose proof (find_none _ _ Hnone a (In_all_archs a)) as Hfound.
    cbn beta in Hfound. rewrite Ha in Hfound. discriminate Hfound.
  - intros Hdir. destruct (find _ all_archs) as [a |] eqn:Hfind;
      [| reflexivity].
    apply find_some in Hfind. destruct Hfind as [_ Ha].
    specialize (Hdir a). destruct (dir (arch_name a)); [discriminate Ha |].
    contradiction.
Qed.

(** The script stops at the first fixture it cannot read. *)
Lemma check_bins_raises dir a :
  first_missing dir = Some a -> check_bins dir = Raise (OSError (arch_name a)).
Proof.
  unfold first_missing, all_archs, check_bins, read_bytes.
  destruct (expected_ok arm64) as [e1 E1], (expected_ok i386) as [e2 E2],
    (expected_ok riscv64) as [e3 E3], (expected_ok s390x) as [e4 E4],
    (expected_ok x86_64) as [e5 E5].
  cbn [expected] in E1, E2, E3, E4, E5. rewrite E1, E2, E3, E4, E5.
  cbn [find arch_name].
  destruct (dir "arm64"%string);
    [| intros Ha; injection Ha as <-; reflexivity].
  destruct (dir "i386"%string);
    [| intros Ha; injection Ha as <-; reflexivity].
  destruct (dir "riscv64"%string);
    [| intros Ha; injection Ha as <-; reflexivity].
  destruct (dir "s390x"%string);
    [| intros Ha; injection Ha as <-; reflexivity].
  destruct (dir "x86_64"%string);
    [| intros Ha; injection Ha as <-; reflexivity].
  discriminate.
Qed.

(** X11: the script runs to its [sys.exit] exactly when the five fixtures
    can be read.  Otherwise it stops with the error of [read_bytes] on the
    first missing fixture, in the order arm64, i386, riscv64, s390x, x86_64,
    before any comparison; it never stops with an [OverflowError] of
    [gen_headers]. *)
Theorem check_bins_missing_fixture (dir : directory) :
  match first_missing dir with
  | Some a => check_bins dir = Raise (OSError (arch_name a))
  | None => exists out, check_bins dir = Ok out
  end.
Proof.
  destruct (first_missing dir) as [a |] eqn:Hfirst.
  - now apply check_bins_raises.
  - pose proof (proj1 (first_missing_none dir) Hfirst) as Hdir.
    rewrite (check_bins_report dir Hdir). eauto.
Qed.

Lemma mismatches_nil dir :
  mismatches dir = [] <-> forall a, fixture_differs dir a = false.
Proof.
  unfold mismatches. rewrite <- length_zero_iff_nil, filter_none.
  split; [intros H a; apply H, In_all_archs | intros H a _; apply H].
Qed.

Lemma fixture_matches dir a :
  fixture_differs dir a = false
  <-> exists e, expected a = Ok e /\ dir (arch_name a) = Some e.
Proof.
  unfold fixture_differs. destruct (expected_ok a) as [e He]. rewrite He.
  split.
  - destruct (dir (arch_name a)) as [c |]; [| discriminate].
    intros Hne. apply bytes_ne_false in Hne. subst c. eauto.
  - intros (e' & He' & Hdir). rewrite Hdir. apply bytes_ne_false. congruence.
Qed.

(** X12: the script prints nothing and exits with status 0 exactly when each
    of the five fixtures is, byte for byte, the expected file. *)
Theorem check_bins_success (dir : directory) :
  check_bins dir = Ok (Outcome [] 0)
  <-> forall a, exists e, expected a = Ok e /\ dir (arch_name a) = Some e.
Proof.
  split.
  - intros Hrun a. apply fixture_matches. revert a. apply mismatches_nil.
    destruct (first_missing dir) as [a' |] eqn:Hfirst.
    + rewrite (check_bins_raises dir a' Hfirst) in Hrun. discriminate Hrun.
    + pose proof (proj1 (first_missing_none dir) Hfirst) as Hdir.
      rewrite (check_bins_report dir Hdir) in Hrun.
      injection Hrun as _ Hcount.
      apply length_zero_iff_nil. lia.
  - intros Hall.
    assert (Hdir : forall a, dir (arch_name a) <> None).
    { intros a. destruct (Hall a) as (e & _ & ->). discriminate. }
    assert (Hnil : mismatches dir = []).
    { apply mismatches_nil. intros a. apply fixture_matches, Hall. }
    rewrite (check_bins_report dir Hdir), Hnil. reflexivity.
Qed.

(** X13: whenever the script reaches [sys.exit], the status it passes is
    between 0 and 5, so it is reported as it is and never wraps around as a
    process exit code. *)
Theorem check_bins_status_range (dir : directory) (out : outcome) :
  check_bins dir = Ok out -> 0 <= exit_status out <= 5.
Proof.
  intros Hrun.
  destruct (first_missing dir) as [a |] eqn:Hfirst.
  - rewrite (check_bins_raises dir a Hfirst) in Hrun. discriminate Hrun.
  - pose proof (proj1 (first_missing_none dir) Hfirst) as Hdir.
    rewrite (check_bins_report dir Hdir) in Hrun. injection Hrun as <-.
    cbn [exit_status]. unfold mismatches.
    pose proof (filter_length_le (fixture_differs dir) all_archs) as Hle.
    cbn [List.length all_archs] in Hle. lia.
Qed.

Lemma check_bins_status_range_witness :
  exists out, check_bins (fun _ => Some []) = Ok out
              /\ 0 <= exit_status out <= 5.
Proof.
  eexists. split; [vm_compute; reflexivity |].
  apply (check_bins_status_range (fun _ => Some [])). vm_compute. reflexivity.
Defined.



(** X15: with the five fixtures in place, the output is the diagnostics of
    the mismatching fixtures in the order arm64, i386, riscv64, s390x,
    x86_64: one line each, and for riscv64 two more lines with the
    hexadecimal dumps of the expected and of the actual bytes. *)
Theorem check_bins_stdout (dir : directory) :
  (forall a, dir (arch_name a) <> None) ->
  exists out,
    check_bins dir = Ok out
    /\ stdout out = flat_map (diagnostic dir) (mismatches dir)
    /\ List.length (stdout out)
       = (List.length (mismatches dir)
          + if fixture_differs dir riscv64 then 2 else 0)%nat.
Proof.
  intros Hdir. eexists. split; [apply (check_bins_report dir Hdir) |].
  cbn [stdout]. split; [reflexivity |].
  unfold mismatches, all_archs. cbn [filter].
  destruct (fixture_differs dir arm64), (fixture_differs dir i386),
    (fixture_differs dir riscv64), (fixture_differs dir s390x),
    (fixture_differs dir x86_64); reflexivity.
Qed.

Lemma check_bins_stdout_witness :
  exists out,
    check_bins (fun _ => Some []) = Ok out
    /\ List.length (stdout out) = 7%nat.
Proof.
  destruct (check_bins_stdout (fun _ => Some []))
    as (out & Hrun & _ & Hlen); [intros a; discriminate |].
  exists out. split; [exact Hrun |]. rewrite Hlen. vm_compute. reflexivity.
Defined.

(** ** Hexadecimal dumps *)

Lemma hex_byte (b : byte) :
  byte.of_Z (16 * hex_value (hex_digit (byte.unsigned b / 16))
             + hex_value (hex_digit (byte.unsigned b mod 16))) = b.
Proof. destruct b; vm_compute; reflexivity. Qed.

(** X16: a hexadecimal dump, as the script prints it for riscv64, has two
    digits per byte and loses nothing: [bytes.fromhex] of the dump is the
    byte sequence again. *)
Theorem fromhex_hex (bs : bytes) :
  fromhex (hex bs) = bs
  /\ String.length (hex bs) = (2 * List.length bs)%nat.
Proof.
  induction bs as [| b bs [IHbs IHlen]]; [split; reflexivity |].
  cbn [hex fromhex String.length List.length]. rewrite hex_byte, IHbs, IHlen.
  split; [reflexivity | lia].
Qed.

(** ** What an argument of [gen_headers] touches *)

(** X17: with the other arguments fixed, two returned headers that differ
    only in [target_id] differ at most in the two bytes of [e_machine],
    bytes 18 and 19. *)
Theorem gen_headers_target_frame
  (t1 t2 instr_len : Z) (is64bit be : bool) (flags : Z) (bs1 bs2 : bytes) :
  gen_headers t1 instr_len is64bit be flags = Ok bs1 ->
  gen_headers t2 instr_len is64bit be flags = Ok bs2 ->
  firstn 18 bs1 = firstn 18 bs2 /\ skipn 20 bs1 = skipn 20 bs2.
Proof.
  intros H1 H2. apply gen_headers_inv in H1, H2.
  destruct H1 as [_ ->], H2 as [_ ->].
  destruct is64bit, be; split; list_compute.
Qed.

Lemma gen_headers_target_frame_witness :
  exists bs1 bs2,
    gen_headers 62 4 true false 0 = Ok bs1
    /\ gen_headers 183 4 true false 0 = Ok bs2
    /\ skipn 20 bs1 = skipn 20 bs2.
Proof.
  do 2 eexists. split; [vm_compute; reflexivity |].
  split; [vm_compute; reflexivity |].
  exact (proj2 (gen_headers_target_frame 62 183 4 true false 0 _ _
                  eq_refl eq_refl)).
Defined.

(** X18: with the other arguments fixed, two returned headers that differ
    only in [instr_len] differ at most in [p_filesz] and [p_memsz], which
    are adjacent: bytes 96 to 111 of a 64-bit header, bytes 68 to 75 of a
    32-bit header. *)
Theorem gen_headers_instr_len_frame
  (target_id n1 n2 : Z) (is64bit be : bool) (flags : Z) (bs1 bs2 : bytes) :
  gen_headers target_id n1 is64bit be flags = Ok bs1 ->
  gen_headers target_id n2 is64bit be flags = Ok bs2 ->
  let lo := (if is64bit then 96 else 68)%nat in
  let hi := (if is64bit then 112 else 76)%nat in
  firstn lo bs1 = firstn lo bs2 /\ skipn hi bs1 = skipn hi bs2.
Proof.
  intros H1 H2 lo hi. subst lo hi. apply gen_headers_inv in H1, H2.
  destruct H1 as [_ ->], H2 as [_ ->].
  destruct is64bit, be; split; list_compute.
Qed.

Lemma gen_headers_instr_len_frame_witness :
  exists bs1 bs2,
    gen_headers 3 7 false false 0 = Ok bs1
    /\ gen_headers 3 900 false false 0 = Ok bs2
    /\ firstn 68 bs1 = firstn 68 bs2
    /\ skipn 76 bs1 = skipn 76 bs2.
Proof.
  do 2 eexists. split; [vm_compute; reflexivity |].
  split; [vm_compute; reflexivity |].
  exact (gen_headers_instr_len_frame 3 7 900 false false 0 _ _
           eq_refl eq_refl).
Defined.
